(** * A shallow embedding of [oi_pool/oi.py]

    The scanner samples Binance open-interest history for every USDT-margined
    perpetual contract, keeps the contracts whose 5m change reaches the
    threshold, and publishes them in the globals [coin_pool] and [oi_top],
    which the two FastAPI handlers read.

    Modelling choices:
    - Python [float] is IEEE-754 binary64: Rocq's primitive [float].
    - JSON values as [resp.json()] returns them: [json] below (JSON integers
      are Python [int]s, JSON reals are Python [float]s; objects keep their
      key/value pairs, a lookup returns the last binding as [json.loads] does;
      strings are Python [str]s whose code points are below 256, one
      [ascii] each).
    - Python exceptions: the result type [res] with [Ok] and [Raise].
    - [fetch_json] maps every failure to [None]: its result is an input of
      the model ([option json]), chosen by the environment. *)

From Stdlib Require Import ZArith List String Ascii Bool Lia.
From Stdlib Require Import Floats.
From Stdlib Require Import Sorting.Permutation Sorting.Sorted.
Import ListNotations.

#[local] Set Warnings "-register-all".
Open Scope string_scope.
Open Scope Z_scope.

(** ** Python values *)

Inductive json : Type :=
| JNull
| JBool (b : bool)
| JInt (z : Z)
| JFloat (f : float)
| JStr (s : string)
| JList (l : list json)
| JObj (kvs : list (string * json)).

Inductive exn : Type :=
| TypeError | KeyError | AttributeError | ValueError
| ZeroDivisionError | OverflowError.

Inductive res (A : Type) : Type :=
| Ok (a : A)
| Raise (e : exn).
Arguments Ok {A} a.
Arguments Raise {A} e.

Definition bind {A B} (m : res A) (k : A -> res B) : res B :=
  match m with Ok a => k a | Raise e => Raise e end.

Notation "x <- m ;; k" := (bind m (fun x => k))
  (at level 61, m at next level, right associativity).

(** [d[k]] on a dict: the last binding of [k], [KeyError] when absent. *)
Fixpoint obj_get (kvs : list (string * json)) (k : string) : option json :=
  match kvs with
  | [] => None
  | (k', v) :: rest =>
      match obj_get rest k with
      | Some w => Some w
      | None => if String.eqb k k' then Some v else None
      end
  end.

(** [x[k]] for a string key [k]: only a dict is subscriptable by a string. *)
Definition getitem_str (x : json) (k : string) : res json :=
  match x with
  | JObj kvs => match obj_get kvs k with Some v => Ok v | None => Raise KeyError end
  | _ => Raise TypeError
  end.

(** [x.get(k)]: dicts only, [None] when absent. *)
Definition dict_get (x : json) (k : string) : res json :=
  match x with
  | JObj kvs => match obj_get kvs k with Some v => Ok v | None => Ok JNull end
  | _ => Raise AttributeError
  end.

(** ** Python's [float(x)] on a string (CPython [PyFloat_FromString]) *)

Definition is_digit (c : ascii) : bool :=
  let n := nat_of_ascii c in (48 <=? n)%nat && (n <=? 57)%nat.

(** [Py_ISSPACE], the test [float_from_string_inner] strips with:
    \t \n \v \f \r and space. *)
Definition is_space (c : ascii) : bool :=
  let n := nat_of_ascii c in
  ((9 <=? n)%nat && (n <=? 13)%nat) || (n =? 32)%nat.

(** [_PyUnicode_TransformDecimalAndSpaceToASCII] on code points below 256:
    characters below 127 are kept, and the Unicode spaces U+0085 and U+00A0
    become a space; every other character stays one that the parser
    refuses ([float()] writes '?' for it). *)
Definition transform_space (c : ascii) : ascii :=
  let n := nat_of_ascii c in
  if (n =? 133)%nat || (n =? 160)%nat then " "%char else c.

Fixpoint drop_space (l : list ascii) : list ascii :=
  match l with
  | c :: r => if is_space c then drop_space r else l
  | [] => []
  end.

Definition strip (l : list ascii) : list ascii := rev (drop_space (rev (drop_space l))).

(** [_Py_string_to_number_with_underscores]: every '_' sits between two
    digits; the underscores are then removed. *)
Fixpoint remove_underscores (prev : ascii) (l : list ascii) : option (list ascii) :=
  match l with
  | [] => if Ascii.eqb prev "_"%char then None else Some []
  | c :: r =>
      if Ascii.eqb c "_"%char then
        if is_digit prev then remove_underscores c r else None
      else if Ascii.eqb prev "_"%char && negb (is_digit c) then None
      else option_map (cons c) (remove_underscores c r)
  end.

Definition lower (c : ascii) : ascii :=
  let n := nat_of_ascii c in
  if (65 <=? n)%nat && (n <=? 90)%nat then ascii_of_nat (n + 32) else c.

Definition lower_eq (l : list ascii) (w : string) : bool :=
  String.eqb (string_of_list_ascii (map lower l)) w.

Fixpoint span_digits (l : list ascii) : list ascii * list ascii :=
  match l with
  | c :: r => if is_digit c then let (d, rest) := span_digits r in (c :: d, rest)
              else ([], l)
  | [] => ([], [])
  end.

Definition digits_value (d : list ascii) : Z :=
  fold_left (fun acc c => acc * 10 + Z.of_nat (nat_of_ascii c - 48)) d 0.

Fixpoint ndigits_fuel (fuel : nat) (m : Z) : Z :=
  match fuel with
  | O => 0
  | S f => if m <? 10 then 1 else 1 + ndigits_fuel f (m / 10)
  end.

(** Number of decimal digits of a positive integer. *)
Definition ndigits (m : Z) : Z := ndigits_fuel (Z.to_nat (Z.log2 m + 1)) m.

(** Round [m * 10^e] (with [m > 0]) to the nearest binary64, ties to even,
    as [_Py_dg_strtod] does: exact for [e >= 0]; for [e < 0] the quotient is
    taken with at least 60 extra bits and a sticky bit, then rounded once.
    Values of 10^400 and beyond overflow to infinity, values below 10^-400
    round to 0. *)
Definition round_decimal (m : Z) (e : Z) : float :=
  let nd := ndigits m in
  if 400 <? nd + e then infinity
  else if nd + e <? -400 then zero
  else if 0 <=? e then SF2Prim (binary_normalize prec emax (m * 10 ^ e) 0 false)
  else
    let k := - e in
    let s := 60 + 4 * k in
    let n := m * 2 ^ s in
    let q := n / 10 ^ k in
    let sticky := if n mod 10 ^ k =? 0 then 0 else 1 in
    SF2Prim (binary_normalize prec emax (2 * q + sticky) (- s - 1) false).

(** [_Py_dg_strtod] on a whole unsigned string: digits, an optional point
    and digits (at least one digit in all), an optional exponent. *)
Definition parse_decimal (l : list ascii) : option float :=
  let (d1, r1) := span_digits l in
  let '(d2, r2) :=
    match r1 with
    | c :: r => if Ascii.eqb c "."%char then span_digits r else ([], r1)
    | [] => ([], [])
    end in
  if (List.length d1 + List.length d2 =? 0)%nat then None else
  let exp :=
    match r2 with
    | [] => Some 0
    | c :: r =>
        if Ascii.eqb (lower c) "e"%char then
          let '(neg, r') :=
            match r with
            | s :: r'' => if Ascii.eqb s "-"%char then (true, r'')
                          else if Ascii.eqb s "+"%char then (false, r'') else (false, r)
            | [] => (false, [])
            end in
          let (d3, r3) := span_digits r' in
          match d3, r3 with
          | _ :: _, [] => Some (if neg then - digits_value d3 else digits_value d3)
          | _, _ => None
          end
        else None
    end in
  match exp with
  | None => None
  | Some x =>
      let m := digits_value (d1 ++ d2)%list in
      let e := x - Z.of_nat (List.length d2) in
      Some (if m =? 0 then zero else round_decimal m e)
  end.

(** [float(s)] for a string [s] of code points below 256 (a Rocq [ascii]
    holds one code point). *)
Definition float_of_str (s : string) : res float :=
  let l0 := map transform_space (list_ascii_of_string s) in
  match (if existsb (fun c => Ascii.eqb c "_"%char) l0
         then remove_underscores "000"%char l0 else Some l0) with
  | None => Raise ValueError
  | Some l1 =>
      let l := strip l1 in
      let '(neg, body) :=
        match l with
        | c :: r => if Ascii.eqb c "-"%char then (true, r)
                    else if Ascii.eqb c "+"%char then (false, r) else (false, l)
        | [] => (false, [])
        end in
      let sgn (f : float) := if neg then (- f)%float else f in
      if lower_eq body "inf" || lower_eq body "infinity" then Ok (sgn infinity)
      else if lower_eq body "nan" then Ok (sgn nan)
      else match parse_decimal body with
           | Some f => Ok (sgn f)
           | None => Raise ValueError
           end
  end.

(** [float(z)] for a Python [int]: correctly rounded, [OverflowError] when
    the rounded value is out of range. *)
Definition float_of_int (z : Z) : res float :=
  match binary_normalize prec emax z 0 false with
  | S754_infinity _ => Raise OverflowError
  | r => Ok (SF2Prim r)
  end.

(** [float(x)] on a JSON value. *)
Definition py_float (x : json) : res float :=
  match x with
  | JBool b => Ok (if b then 1%float else 0%float)
  | JInt z => float_of_int z
  | JFloat f => Ok f
  | JStr s => float_of_str s
  | _ => Raise TypeError
  end.

(** ** Configuration *)

Definition THRESHOLD : float := 8%float.
Definition CONCURRENCY : Z := 20.
Definition aggregation_interval : Z := 5.

(** ** [get_oi_change]

    [data] is what [fetch_json] returned for the openInterestHist request of
    [symbol] ([None] on any transport or decoding failure). The [try] block
    turns every exception into [None]. *)

Definition oi_result : Type := (json * float * float)%type.

Definition oi_try (data : list json) : res (float * float) :=
  d0 <- getitem_str (nth 0 data JNull) "sumOpenInterestValue" ;;
  oi_old <- py_float d0 ;;
  d1 <- getitem_str (nth 1 data JNull) "sumOpenInterestValue" ;;
  oi_now <- py_float d1 ;;
  (* Python's float division raises on a zero divisor (0.0 or -0.0) *)
  if (oi_old =? 0)%float then Raise ZeroDivisionError
  else Ok ((oi_now - oi_old) / oi_old * 100, oi_now)%float.

Definition get_oi_change (data : option json) (symbol : json) : option oi_result :=
  match data with
  | Some (JList l) =>
      if (List.length l <? 2)%nat then None
      else match oi_try l with
           | Ok (change, oi_now) => Some (symbol, change, oi_now)
           | Raise _ => None
           end
  | _ => None
  end.

(** ** [get_usdtm_symbols] *)

(** Python truthiness of a JSON value ([not data]). *)
Definition truthy (x : json) : bool :=
  match x with
  | JNull => false
  | JBool b => b
  | JInt z => negb (z =? 0)
  | JFloat f => negb (f =? 0)%float
  | JStr s => negb (String.eqb s "")
  | JList l => negb (List.length l =? 0)%nat
  | JObj kvs => negb (List.length kvs =? 0)%nat
  end.

Fixpoint substring_of (w s : string) : bool :=
  String.prefix w s ||
  match s with EmptyString => false | String _ r => substring_of w r end.

(** Python equality of a JSON value with a string constant. *)
Definition eq_str (x : json) (w : string) : bool :=
  match x with JStr s => String.eqb s w | _ => false end.

(** [k in x] for a string [k]. *)
Definition contains (x : json) (k : string) : res bool :=
  match x with
  | JObj kvs => Ok (match obj_get kvs k with Some _ => true | None => false end)
  | JList l => Ok (existsb (fun v => eq_str v k) l)
  | JStr s => Ok (substring_of k s)
  | _ => Raise TypeError
  end.

(** [iter(x)]: a list yields its items, a dict its keys, a string its characters. *)
Definition py_iter (x : json) : res (list json) :=
  match x with
  | JList l => Ok l
  | JObj kvs => Ok (map (fun kv => JStr (fst kv)) kvs)
  | JStr s => Ok (map (fun c => JStr (String c EmptyString)) (list_ascii_of_string s))
  | _ => Raise TypeError
  end.

(** The list comprehension: the three [.get] tests are evaluated left to
    right with [and] short-circuiting, then [item["symbol"]] is taken. *)
Fixpoint select_symbols (items : list json) : res (list json) :=
  match items with
  | [] => Ok []
  | item :: rest =>
      ct <- dict_get item "contractType" ;;
      keep <- (if eq_str ct "PERPETUAL" then
                 qa <- dict_get item "quoteAsset" ;;
                 if eq_str qa "USDT" then
                   st <- dict_get item "status" ;;
                   Ok (eq_str st "TRADING")
                 else Ok false
               else Ok false) ;;
      if keep then
        sym <- getitem_str item "symbol" ;;
        tl <- select_symbols rest ;;
        Ok (sym :: tl)
      else select_symbols rest
  end.

Definition get_usdtm_symbols (data : option json) : res (list json) :=
  match data with
  | None => Ok []
  | Some d =>
      if negb (truthy d) then Ok [] else
      has <- contains d "symbols" ;;
      if negb has then Ok [] else
      syms <- getitem_str d "symbols" ;;
      items <- py_iter syms ;;
      select_symbols items
  end.
(** ** [run_scan]: aggregation and publication *)

(** The globals [coin_pool] and [oi_top]. *)
Record pstate : Type := { coin_pool : list json; oi_top : list json }.

Definition initial : pstate := {| coin_pool := []; oi_top := [] |}.

Definition res_sym (r : oi_result) : json := fst (fst r).
Definition res_change (r : oi_result) : float := snd (fst r).

(** [abs(chg) >= THRESHOLD] *)
Definition is_spike (r : oi_result) : bool := (THRESHOLD <=? abs (res_change r))%float.

(** The sort key [lambda x: abs(x[1])]. *)
Definition sort_key (r : oi_result) : float := abs (res_change r).

(** [sorted(..., key=sort_key, reverse=True)] is stable: among equal keys the
    original order is kept, and it compares keys with [<] only. A stable
    sort's output is unique for keys that [<] orders totally (no NaN, which
    never passes [is_spike]), so it is modelled by a stable insertion: the
    new item goes before the first item whose key is smaller than its own. *)
Fixpoint insert_desc (x : oi_result) (l : list oi_result) : list oi_result :=
  match l with
  | [] => [x]
  | y :: r => if (sort_key y <? sort_key x)%float then x :: l else y :: insert_desc x r
  end.

Definition sorted_desc (l : list oi_result) : list oi_result :=
  fold_left (fun acc x => insert_desc x acc) l [].

(** The results of the tasks, in completion order: every task contributes
    [get_oi_change] of its symbol, [None]s are dropped ([if r:]). *)
Definition collect (completed : list (json * option json)) : list oi_result :=
  fold_right (fun c acc => match get_oi_change (snd c) (fst c) with
                           | Some r => r :: acc
                           | None => acc
                           end) [] completed.

Definition spikes_of (completed : list (json * option json)) : list oi_result :=
  filter is_spike (collect completed).

(** The publication step: overwrite both globals when [spikes] is non-empty. *)
Definition publish (st : pstate) (spikes : list oi_result) : pstate :=
  match spikes with
  | [] => st
  | _ => {| coin_pool := map res_sym spikes;
            oi_top := map res_sym (sorted_desc spikes) |}
  end.

(** One call of [run_scan]. [catalog] is [fetch_json]'s result for
    exchangeInfo; [completed] lists each task's symbol with [fetch_json]'s
    result for its openInterestHist request, in completion order. The
    result: the outcome ([Raise] when an exception escapes), the globals
    after the call, and the symbols for which an openInterestHist request
    was issued (one task per symbol). *)
Definition run_scan (st : pstate) (catalog : option json)
    (completed : list (json * option json)) : res unit * pstate * list json :=
  match get_usdtm_symbols catalog with
  | Raise e => (Raise e, st, [])
  | Ok [] => (Ok tt, st, [])
  | Ok symbols => (Ok tt, publish st (spikes_of completed), symbols)
  end.

Definition scan_outcome (o : res unit * pstate * list json) : res unit := fst (fst o).
Definition scan_state (o : res unit * pstate * list json) : pstate := snd (fst o).
Definition scan_requests (o : res unit * pstate * list json) : list json := snd o.

(** [asyncio.as_completed] yields every task exactly once, in some order. *)
Definition completion_ok (catalog : option json) (completed : list (json * option json)) : Prop :=
  forall symbols, get_usdtm_symbols catalog = Ok symbols ->
    Permutation (map fst completed) symbols.

(** The states the globals take while [scheduler] runs. An exception
    escaping [run_scan] ends the [scheduler] task, so later cycles need
    [Ok]. *)
Inductive reachable : pstate -> Prop :=
| reach_init : reachable initial
| reach_cycle st catalog completed :
    reachable st ->
    completion_ok catalog completed ->
    scan_outcome (run_scan st catalog completed) = Ok tt ->
    reachable (scan_state (run_scan st catalog completed)).

(** ** The query handlers

    A handler reads the globals and returns its response; the pair it
    returns carries the globals after the call. *)

Definition get_coin_pool (st : pstate) : json * pstate :=
  (JObj [("success", JBool true);
         ("data", JObj [("coins", JList (map (fun sym => JObj [("pair", sym)]) (coin_pool st)));
                        ("count", JInt (Z.of_nat (List.length (coin_pool st))))])], st).

Definition get_oi_top (st : pstate) : json * pstate :=
  (JObj [("success", JBool true);
         ("data", JObj [("positions", JList (map (fun sym => JObj [("symbol", sym)]) (oi_top st)));
                        ("count", JInt (Z.of_nat (List.length (oi_top st))));
                        ("exchange", JStr "binance");
                        ("time_range", JStr "5m")])], st).

(** ** The period aligner

    A UTC [datetime] as the number of microseconds since 1970-01-01 00:00:00
    (a whole number of days from [datetime.min], and Python's [datetime] has
    no leap seconds), with its [minute], [second] and [microsecond] fields. *)

Definition US_PER_S : Z := 1000000.
Definition US_PER_MIN : Z := 60 * US_PER_S.

Definition dt_microsecond (t : Z) : Z := t mod US_PER_S.
Definition dt_second (t : Z) : Z := (t / US_PER_S) mod 60.
Definition dt_minute (t : Z) : Z := (t / US_PER_MIN) mod 60.

(** [current_time.replace(minute=..., second=0, microsecond=0)] *)
Definition dt_replace_minute (t : Z) (minute : Z) : Z :=
  t - dt_microsecond t - dt_second t * US_PER_S - dt_minute t * US_PER_MIN
    + minute * US_PER_MIN.

Definition align_to_kline_period (current_time : Z) : Z :=
  let aligned_minute := (dt_minute current_time / aggregation_interval) * aggregation_interval in
  dt_replace_minute current_time aligned_minute.

Definition next_period_start (current_time : Z) : Z :=
  align_to_kline_period current_time + aggregation_interval * US_PER_MIN.

(** [wait_for_next_kline_period]: [now1] and [now2] are the two readings of
    [datetime.now(timezone.utc)]; the result is the sleep performed, if any,
    in microseconds ([total_seconds()] keeps the sign of the difference). *)
Definition wait_for_next_kline_period (now1 now2 : Z) : option Z :=
  let wait := next_period_start now1 - now2 in
  if 0 <? wait then Some wait else None.

Definition wait_seconds (now1 now2 : Z) : Z := next_period_start now1 - now2.
(** ** The asyncio event loop

    The [scheduler] task and the FastAPI handlers ([async def], no [await]
    inside) share one event loop thread. A task runs until it reaches an
    [await], where the loop may run other callbacks; a handler call runs to
    its end in one go. The scanner's code for one [while True] iteration is a
    list of instructions: an [IAwait] for each suspension point, and the two
    assignments of [run_scan]. [pool_tag] and [top_tag] record the iteration
    that last assigned each global (ghost state of the model). *)

Inductive instr : Type :=
| IAwait
| ISetPool (l : list json)
| ISetTop (l : list json).

(** The assignments of [run_scan] (lines 97-99), if any. *)
Definition publish_code (catalog : option json) (completed : list (json * option json)) : list instr :=
  match get_usdtm_symbols catalog with
  | Ok (_ :: _) =>
      match spikes_of completed with
      | [] => []
      | spikes => [ISetPool (map res_sym spikes); ISetTop (map res_sym (sorted_desc spikes))]
      end
  | _ => []
  end.

(** One iteration of [scheduler]: the sleep of [wait_for_next_kline_period],
    the exchangeInfo request, one resumption per task in the [as_completed]
    loop, then the publication. *)
Definition cycle_code (catalog : option json) (completed : list (json * option json)) : list instr :=
  IAwait :: IAwait :: (map (fun _ => IAwait) completed ++ publish_code catalog completed)%list.

Record loop : Type := {
  globals : pstate;
  pool_tag : nat;
  top_tag : nat;
  iteration : nat;
  pc : list instr;
  running : bool }.

Definition loop_init : loop :=
  {| globals := initial; pool_tag := 0; top_tag := 0; iteration := 0; pc := []; running := false |}.

Inductive loop_step : loop -> loop -> Prop :=
| step_set_pool g pt tt n l rest :
    loop_step {| globals := g; pool_tag := pt; top_tag := tt; iteration := n;
                 pc := ISetPool l :: rest; running := true |}
              {| globals := {| coin_pool := l; oi_top := oi_top g |}; pool_tag := n;
                 top_tag := tt; iteration := n; pc := rest; running := true |}
| step_set_top g pt tt n l rest :
    loop_step {| globals := g; pool_tag := pt; top_tag := tt; iteration := n;
                 pc := ISetTop l :: rest; running := true |}
              {| globals := {| coin_pool := coin_pool g; oi_top := l |}; pool_tag := pt;
                 top_tag := n; iteration := n; pc := rest; running := true |}
| step_await g pt tt n rest :
    loop_step {| globals := g; pool_tag := pt; top_tag := tt; iteration := n;
                 pc := IAwait :: rest; running := true |}
              {| globals := g; pool_tag := pt; top_tag := tt; iteration := n;
                 pc := rest; running := false |}
| step_resume g pt tt n code :
    loop_step {| globals := g; pool_tag := pt; top_tag := tt; iteration := n;
                 pc := code; running := false |}
              {| globals := g; pool_tag := pt; top_tag := tt; iteration := n;
                 pc := code; running := true |}
| step_next_iteration g pt tt n catalog completed :
    loop_step {| globals := g; pool_tag := pt; top_tag := tt; iteration := n;
                 pc := []; running := true |}
              {| globals := g; pool_tag := pt; top_tag := tt; iteration := S n;
                 pc := cycle_code catalog completed; running := true |}.

Inductive loop_reachable : loop -> Prop :=
| lr_init : loop_reachable loop_init
| lr_step l l' : loop_reachable l -> loop_step l l' -> loop_reachable l'.

(** A handler call observes the globals; it can only run while the scanner
    is suspended. *)
Definition handler_observes (l : loop) (obs : list json * list json) : Prop :=
  running l = false /\ obs = (coin_pool (globals l), oi_top (globals l)).

(** ** Inputs used in the statements *)

(** An entry of an openInterestHist response. *)
Definition oi_entry (v : json) : json := JObj [("sumOpenInterestValue", v)].

(** An exchangeInfo catalog entry. *)
Definition catalog_entry (sym contract quote status : string) : json :=
  JObj [("symbol", JStr sym); ("contractType", JStr contract);
        ("quoteAsset", JStr quote); ("status", JStr status)].

(** The end-to-end scenario: symbols A, B, C with values (100, 109),
    (100, 100), (50, 44); the tasks complete in the order A, C, B. *)
Definition example_catalog : option json :=
  Some (JObj [("symbols", JList [catalog_entry "A" "PERPETUAL" "USDT" "TRADING";
                                 catalog_entry "B" "PERPETUAL" "USDT" "TRADING";
                                 catalog_entry "C" "PERPETUAL" "USDT" "TRADING"])]).

Definition example_completed : list (json * option json) :=
  [(JStr "A", Some (JList [oi_entry (JStr "100"); oi_entry (JStr "109")]));
   (JStr "C", Some (JList [oi_entry (JStr "50"); oi_entry (JStr "44")]));
   (JStr "B", Some (JList [oi_entry (JStr "100"); oi_entry (JStr "100")]))].

(** The event loop after the first iteration published the scenario's
    spikes ([coin_pool] A, C; [oi_top] C, A), with the scanner suspended at
    the first [await] of the next iteration (whose exchangeInfo request
    failed). *)
Definition after_first_publish : loop :=
  {| globals := {| coin_pool := [JStr "A"; JStr "C"]; oi_top := [JStr "C"; JStr "A"] |};
     pool_tag := 1; top_tag := 1; iteration := 2; pc := [IAwait]; running := false |}.

(** The UTC instant [h:m:s] of day [day] after 1970-01-01. *)
Definition clock (day h m s : Z) : Z := ((day * 24 + h) * 60 + m) * US_PER_MIN + s * US_PER_S.

(** A field of a catalog entry, [JNull] when absent (what [.get] returns). *)
Definition field (kvs : list (string * json)) (k : string) : json :=
  match obj_get kvs k with Some v => v | None => JNull end.

(** The symbols a catalog entry contributes when every entry is a dict
    carrying a [symbol]: its symbol when it is a trading USDT perpetual. *)
Definition usdtm_entry_symbol (item : json) : list json :=
  match item with
  | JObj kvs =>
      if eq_str (field kvs "contractType") "PERPETUAL" && eq_str (field kvs "quoteAsset") "USDT"
         && eq_str (field kvs "status") "TRADING"
      then [field kvs "symbol"] else []
  | _ => []
  end.

(** Keys that [<] orders totally: the absolute values that are not NaN. *)
Definition good (x : float) : Prop :=
  match Prim2SF x with
  | S754_zero false | S754_infinity false | S754_finite false _ _ => True
  | _ => False
  end.

(** The globals list the symbols of the spike list [sp], in order and
    sorted. *)
Definition published_from (st : pstate) (sp : list oi_result) : Prop :=
  Forall (fun r => is_spike r = true) sp /\
  coin_pool st = map res_sym sp /\ oi_top st = map res_sym (sorted_desc sp).

(** * Properties *)

(** ** Helper lemmas *)

Lemma collect_in (completed : list (json * option json)) (sym : json) (data : option json)
    (r : oi_result) :
  In (sym, data) completed -> get_oi_change data sym = Some r -> In r (collect completed).
Proof.
  induction completed as [|[s d] rest IH]; simpl; [tauto|].
  intros [Heq | Hin] Hr.
  - inversion Heq; subst. simpl. rewrite Hr. left; reflexivity.
  - destruct (get_oi_change d s); [right|]; auto.
Qed.

(** *** Float comparisons on non-NaN absolute values *)

Lemma good_abs (c : float) : (THRESHOLD <=? abs c)%float = true -> good (abs c).
Proof.
  unfold THRESHOLD. rewrite leb_spec, abs_spec. unfold good. rewrite abs_spec.
  destruct (Prim2SF c); simpl; auto. intros H; cbv in H; discriminate.
Qed.

Ltac sf_cases :=
  repeat match goal with
  | |- context [Pos.compare_cont Eq ?a ?b] => change (Pos.compare_cont Eq a b) with (Pos.compare a b)
  | H : context [Pos.compare_cont Eq ?a ?b] |- _ => change (Pos.compare_cont Eq a b) with (Pos.compare a b) in H
  end;
  repeat match goal with
  | |- context [Z.compare ?a ?b] => destruct (Z.compare_spec a b)
  | H : context [Z.compare ?a ?b] |- _ => destruct (Z.compare_spec a b)
  | |- context [Pos.compare ?a ?b] => destruct (Pos.compare_spec a b)
  | H : context [Pos.compare ?a ?b] |- _ => destruct (Pos.compare_spec a b)
  end; simpl in *; subst; try discriminate; try reflexivity; try lia.

Ltac good_destruct x :=
  unfold good in *; destruct (Prim2SF x) as [[]|[]| |[] ? ?]; try contradiction.

Lemma flt_le (x y : float) : (x <? y)%float = true -> (x <=? y)%float = true.
Proof.
  rewrite ltb_spec, leb_spec. unfold SFltb, SFleb.
  destruct (SFcompare _ _) as [[]|]; auto.
Qed.

Lemma fnlt_le (x y : float) : good x -> good y -> (x <? y)%float = false -> (y <=? x)%float = true.
Proof.
  rewrite ltb_spec, leb_spec. unfold SFltb, SFleb, SFcompare.
  intros Gx Gy. good_destruct x; good_destruct y; intros; sf_cases.
Qed.

Lemma fle_trans (x y z : float) : good x -> good y -> good z ->
  (x <=? y)%float = true -> (y <=? z)%float = true -> (x <=? z)%float = true.
Proof.
  rewrite !leb_spec. unfold SFleb, SFcompare.
  intros Gx Gy Gz. good_destruct x; good_destruct y; good_destruct z; intros; sf_cases.
Qed.

Lemma flt_nle (x y : float) : good x -> good y -> (x <? y)%float = true -> (y <=? x)%float = false.
Proof.
  rewrite ltb_spec, leb_spec. unfold SFltb, SFleb, SFcompare.
  intros Gx Gy. good_destruct x; good_destruct y; intros; sf_cases.
Qed.

Lemma feq_le (x y : float) : good x -> good y -> (x =? y)%float = true -> (y <=? x)%float = true.
Proof.
  rewrite eqb_spec, leb_spec. unfold SFeqb, SFleb, SFcompare.
  intros Gx Gy. good_destruct x; good_destruct y; intros; sf_cases.
Qed.

Lemma feq_trans (x y z : float) : good x -> good z ->
  (x =? y)%float = true -> (z =? y)%float = true -> (x =? z)%float = true.
Proof.
  rewrite !eqb_spec. unfold SFeqb, SFcompare.
  intros Gx Gz. good_destruct x; good_destruct z;
    destruct (Prim2SF y) as [[]|[]| |[] ? ?]; intros; sf_cases.
Qed.

Lemma fle_refl (x : float) : good x -> (x <=? x)%float = true.
Proof.
  rewrite leb_spec. unfold SFleb, SFcompare.
  intros Gx. good_destruct x; sf_cases.
Qed.

(** *** The stable descending sort *)

Definition desc (l : list oi_result) : Prop :=
  StronglySorted (fun a b => (sort_key b <=? sort_key a)%float = true) l.

Definition good_keys (l : list oi_result) : Prop := Forall (fun r => good (sort_key r)) l.

Lemma insert_desc_perm (x : oi_result) (l : list oi_result) :
  Permutation (insert_desc x l) (x :: l).
Proof.
  induction l as [|y r IH]; simpl; [reflexivity|].
  destruct (sort_key y <? sort_key x)%float; [reflexivity|].
  rewrite IH. apply perm_swap.
Qed.

Lemma sorted_desc_perm_acc (l acc : list oi_result) :
  Permutation (fold_left (fun acc x => insert_desc x acc) l acc) (l ++ acc)%list.
Proof.
  revert acc; induction l as [|x l IH]; intros acc; simpl; [reflexivity|].
  rewrite IH, insert_desc_perm. symmetry. apply Permutation_middle.
Qed.

Lemma sorted_desc_perm (l : list oi_result) : Permutation (sorted_desc l) l.
Proof.
  unfold sorted_desc. rewrite sorted_desc_perm_acc, app_nil_r. reflexivity.
Qed.

Lemma good_keys_perm (l l' : list oi_result) : Permutation l l' -> good_keys l -> good_keys l'.
Proof.
  unfold good_keys. intros HP HF. rewrite Forall_forall in *.
  intros r Hr. apply HF. eapply Permutation_in; [symmetry; exact HP | exact Hr].
Qed.

Lemma insert_desc_sorted (x : oi_result) (l : list oi_result) :
  good_keys (x :: l) -> desc l -> desc (insert_desc x l).
Proof.
  unfold good_keys, desc. intros HG. inversion HG as [|? ? Gx Gl]; subst.
  induction l as [|y r IH]; intros HS; simpl.
  - constructor; constructor.
  - inversion Gl as [|? ? Gy Gr]; subst. inversion HS as [|? ? Sr Fr]; subst.
    destruct (sort_key y <? sort_key x)%float eqn:E.
    + constructor; [exact HS|]. constructor; [apply flt_le; exact E|].
      apply Forall_forall. intros z Hz.
      rewrite Forall_forall in Gr, Fr.
      apply fle_trans with (sort_key y); auto using flt_le.
    + constructor.
      * apply IH; auto.
      * apply Forall_forall. intros z Hz.
        apply (Permutation_in _ (insert_desc_perm x r)) in Hz.
        destruct Hz as [<- | Hz]; [apply fnlt_le; auto|].
        rewrite Forall_forall in Fr; auto.
Qed.

Lemma sorted_desc_sorted_acc (l acc : list oi_result) :
  good_keys l -> good_keys acc -> desc acc ->
  desc (fold_left (fun acc x => insert_desc x acc) l acc).
Proof.
  revert acc; induction l as [|x l IH]; intros acc Gl Ga Sa; simpl; [exact Sa|].
  inversion Gl; subst. apply IH; auto.
  - apply good_keys_perm with (x :: acc); [symmetry; apply insert_desc_perm|constructor; auto].
  - apply insert_desc_sorted; auto. constructor; auto.
Qed.

Lemma sorted_desc_sorted (l : list oi_result) : good_keys l -> desc (sorted_desc l).
Proof.
  intros G. apply sorted_desc_sorted_acc; auto; constructor.
Qed.

Lemma filter_none {A} (f : A -> bool) (l : list A) :
  (forall z, In z l -> f z = false) -> filter f l = [].
Proof.
  induction l as [|a l IH]; intros H; simpl; [reflexivity|].
  rewrite (H a (or_introl eq_refl)). apply IH. intros z Hz. apply H. right; exact Hz.
Qed.

Definition same_key (k : float) (r : oi_result) : bool := (sort_key r =? k)%float.

Lemma insert_desc_stable (k : float) (x : oi_result) (l : list oi_result) :
  good_keys (x :: l) -> desc l ->
  filter (same_key k) (insert_desc x l) = (filter (same_key k) l ++ filter (same_key k) [x])%list.
Proof.
  unfold good_keys, desc. intros HG. inversion HG as [|? ? Gx Gl]; subst.
  induction l as [|y r IH]; intros HS; simpl; [reflexivity|].
  inversion Gl as [|? ? Gy Gr]; subst. inversion HS as [|? ? Sr Fr]; subst.
  destruct (sort_key y <? sort_key x)%float eqn:E.
  - destruct (same_key k x) eqn:Kx.
    + (* no item of [y :: r] has the key of [x]: their keys are at most [sort_key y] *)
      assert (Hnone : forall z, In z (y :: r) -> same_key k z = false).
      { intros z Hz. destruct (same_key k z) eqn:Kz; [|reflexivity]. exfalso.
        assert (Gz : good (sort_key z)).
        { destruct Hz as [<-|Hz]; [exact Gy|]. rewrite Forall_forall in Gr; auto. }
        assert (Ezx : (sort_key z =? sort_key x)%float = true)
          by (apply feq_trans with k; auto).
        assert (Lzy : (sort_key z <=? sort_key y)%float = true).
        { destruct Hz as [<-|Hz]; [apply fle_refl; exact Gy|].
          rewrite Forall_forall in Fr; auto. }
        assert (Lxz : (sort_key x <=? sort_key z)%float = true) by (apply feq_le; auto).
        pose proof (flt_nle _ _ Gy Gx E) as N.
        rewrite (fle_trans _ _ _ Gx Gz Gy Lxz Lzy) in N. discriminate. }
      simpl. rewrite Kx, (Hnone y (or_introl eq_refl)),
        (filter_none (same_key k) r (fun z Hz => Hnone z (or_intror Hz))).
      reflexivity.
    + simpl. rewrite Kx, app_nil_r. reflexivity.
  - simpl. rewrite IH; auto. destruct (same_key k y); reflexivity.
Qed.


(** C1: when the first two entries of the openInterestHist series carry
    values that [float()] accepts, [oi_old] and [oi_now], with [oi_old != 0],
    [get_oi_change] returns [(symbol, (oi_now - oi_old) / oi_old * 100, oi_now)]
    and that result is among the scan results of the cycle. *)
Theorem get_oi_change_formula (completed : list (json * option json)) (symbol : json)
    (l : list json) (v0 v1 : json) (oi_old oi_now : float) :
  In (symbol, Some (JList l)) completed ->
  (2 <= List.length l)%nat ->
  getitem_str (nth 0 l JNull) "sumOpenInterestValue" = Ok v0 ->
  getitem_str (nth 1 l JNull) "sumOpenInterestValue" = Ok v1 ->
  py_float v0 = Ok oi_old ->
  py_float v1 = Ok oi_now ->
  (oi_old =? 0)%float = false ->
  get_oi_change (Some (JList l)) symbol =
    Some (symbol, ((oi_now - oi_old) / oi_old * 100)%float, oi_now) /\
  In (symbol, ((oi_now - oi_old) / oi_old * 100)%float, oi_now) (collect completed).
Proof.
  intros Hin Hlen H0 H1 F0 F1 Hz.
  assert (Hget : get_oi_change (Some (JList l)) symbol =
                 Some (symbol, ((oi_now - oi_old) / oi_old * 100)%float, oi_now)).
  { unfold get_oi_change.
    destruct (Nat.ltb_spec (List.length l) 2); [lia|].
    unfold oi_try. rewrite H0; simpl. rewrite F0; simpl. rewrite H1; simpl.
    rewrite F1; simpl. rewrite Hz. reflexivity. }
  split; [exact Hget|]. eapply collect_in; eassumption.
Qed.

(** ** C3 *)

(** C3: a cycle whose spike set is empty leaves both globals as they were. *)
Theorem no_spikes_keeps_state (st : pstate) (catalog : option json)
    (completed : list (json * option json)) :
  spikes_of completed = [] ->
  scan_state (run_scan st catalog completed) = st.
Proof.
  intros H. unfold run_scan.
  destruct (get_usdtm_symbols catalog) as [[|s ss]|e]; simpl; try reflexivity.
  rewrite H. reflexivity.
Qed.

(** ** C5 *)

(** C5: a failed exchangeInfo request yields no symbols, and a cycle whose
    symbol list is empty issues no openInterestHist request and leaves the
    globals untouched. The same holds when [get_usdtm_symbols] raises. *)
Theorem empty_universe_aborts (st : pstate) (catalog : option json)
    (completed : list (json * option json)) :
  get_usdtm_symbols None = Ok [] /\
  (get_usdtm_symbols catalog = Ok [] \/ (exists e, get_usdtm_symbols catalog = Raise e) ->
   scan_state (run_scan st catalog completed) = st /\
   scan_requests (run_scan st catalog completed) = []).
Proof.
  split; [reflexivity|].
  intros [H | [e H]]; unfold run_scan; rewrite H; split; reflexivity.
Qed.

(** ** C8 *)

(** C8: [/coinpool] and [/oitop] answer [success: true] with the globals'
    symbols in order, wrapped as [{pair: s}] and [{symbol: s}], a [count]
    equal to the number of listed items, and leave the globals unchanged. *)
Theorem handlers_read_only (st : pstate) :
  (let '(r, st') := get_coin_pool st in
   st' = st /\ getitem_str r "success" = Ok (JBool true) /\
   exists d coins, getitem_str r "data" = Ok d /\
     getitem_str d "coins" = Ok (JList coins) /\
     coins = map (fun sym => JObj [("pair", sym)]) (coin_pool st) /\
     getitem_str d "count" = Ok (JInt (Z.of_nat (List.length coins)))) /\
  (let '(r, st') := get_oi_top st in
   st' = st /\ getitem_str r "success" = Ok (JBool true) /\
   exists d positions, getitem_str r "data" = Ok d /\
     getitem_str d "positions" = Ok (JList positions) /\
     positions = map (fun sym => JObj [("symbol", sym)]) (oi_top st) /\
     getitem_str d "count" = Ok (JInt (Z.of_nat (List.length positions))) /\
     getitem_str d "exchange" = Ok (JStr "binance") /\
     getitem_str d "time_range" = Ok (JStr "5m")).
Proof.
  split; simpl; (split; [reflexivity|]); (split; [reflexivity|]);
    eexists; eexists; repeat split; rewrite ?length_map; reflexivity.
Qed.

(** ** C10 *)

(** C10: a list response of length at least two passes the length test and
    only its first two entries matter (index 0 is the prior value, index 1
    the current one). *)
Theorem first_two_entries_used (data : list json) (symbol : json) :
  (2 <= List.length data)%nat ->
  get_oi_change (Some (JList data)) symbol =
    match oi_try (firstn 2 data) with
    | Ok (change, oi_now) => Some (symbol, change, oi_now)
    | Raise _ => None
    end /\
  get_oi_change (Some (JList data)) symbol =
    get_oi_change (Some (JList (firstn 2 data))) symbol.
Proof.
  intros H.
  destruct data as [|x0 [|x1 rest]]; simpl in H; try lia.
  simpl. split; reflexivity.
Qed.

Lemma sorted_desc_stable_acc (k : float) (l acc : list oi_result) :
  good_keys l -> good_keys acc -> desc acc ->
  filter (same_key k) (fold_left (fun acc x => insert_desc x acc) l acc) =
  (filter (same_key k) acc ++ filter (same_key k) l)%list.
Proof.
  revert acc; induction l as [|x l IH]; intros acc Gl Ga Sa; simpl.
  - rewrite app_nil_r. reflexivity.
  - inversion Gl; subst.
    rewrite IH; auto.
    + rewrite insert_desc_stable; auto; [|constructor; auto].
      rewrite <- app_assoc. simpl. destruct (same_key k x); reflexivity.
    + apply good_keys_perm with (x :: acc); [symmetry; apply insert_desc_perm|constructor; auto].
    + apply insert_desc_sorted; auto. constructor; auto.
Qed.

Lemma spikes_good_keys (completed : list (json * option json)) :
  good_keys (spikes_of completed).
Proof.
  unfold good_keys, spikes_of. apply Forall_forall. intros r Hr.
  apply filter_In in Hr as [_ Hs]. apply good_abs. exact Hs.
Qed.

Lemma spikes_are_spikes (completed : list (json * option json)) :
  Forall (fun r => is_spike r = true) (spikes_of completed).
Proof.
  apply Forall_forall. intros r Hr. apply filter_In in Hr as [_ Hs]. exact Hs.
Qed.

Lemma spike_good_keys (sp : list oi_result) :
  Forall (fun r => is_spike r = true) sp -> good_keys sp.
Proof.
  unfold good_keys. rewrite !Forall_forall. intros H r Hr. apply good_abs, H, Hr.
Qed.

Lemma run_scan_published (st : pstate) (catalog : option json)
    (completed : list (json * option json)) (sp : list oi_result) :
  published_from st sp ->
  exists sp', published_from (scan_state (run_scan st catalog completed)) sp'.
Proof.
  intros H. unfold scan_state, run_scan.
  destruct (get_usdtm_symbols catalog) as [[|s ss]|e]; simpl; try (exists sp; exact H).
  unfold publish. destruct (spikes_of completed) as [|r rs] eqn:E; [exists sp; exact H|].
  exists (r :: rs). rewrite <- E. split; [apply spikes_are_spikes | split; reflexivity].
Qed.

Lemma get_oi_change_sym (data : option json) (symbol : json) (r : oi_result) :
  get_oi_change data symbol = Some r -> res_sym r = symbol.
Proof.
  unfold get_oi_change. destruct data as [[]|]; try discriminate.
  destruct (List.length l <? 2)%nat; [discriminate|].
  destruct (oi_try l) as [[c o]|]; [|discriminate].
  intros Hr; inversion Hr; reflexivity.
Qed.

Lemma run_scan_publishes (st : pstate) (catalog : option json)
    (completed : list (json * option json)) (s : json) (ss : list json) :
  get_usdtm_symbols catalog = Ok (s :: ss) -> spikes_of completed <> [] ->
  scan_state (run_scan st catalog completed) =
  {| coin_pool := map res_sym (spikes_of completed);
     oi_top := map res_sym (sorted_desc (spikes_of completed)) |}.
Proof.
  intros Hs Hne. unfold scan_state, run_scan. rewrite Hs. unfold publish.
  destruct (spikes_of completed); [contradiction|reflexivity].
Qed.

(** ** C2 *)

(** C2: after a publishing cycle (a non-empty universe and a non-empty
    spike list), [coin_pool] lists the symbols of the cycle's spikes in
    completion order and [oi_top] the symbols of the same spikes after the
    sort; [oi_top] is a permutation of [coin_pool], each entry's
    [abs(change)] is at least that of every later entry, and entries with
    equal [abs(change)] keep their completion order. *)
Theorem ranked_spikes_sorted (st : pstate) (catalog : option json)
    (completed : list (json * option json)) (s : json) (ss : list json) :
  get_usdtm_symbols catalog = Ok (s :: ss) ->
  spikes_of completed <> [] ->
  coin_pool (scan_state (run_scan st catalog completed)) = map res_sym (spikes_of completed) /\
  oi_top (scan_state (run_scan st catalog completed)) =
    map res_sym (sorted_desc (spikes_of completed)) /\
  Permutation (oi_top (scan_state (run_scan st catalog completed)))
              (coin_pool (scan_state (run_scan st catalog completed))) /\
  StronglySorted (fun a b => (sort_key b <=? sort_key a)%float = true)
                 (sorted_desc (spikes_of completed)) /\
  (forall k : float,
     filter (fun r => (sort_key r =? k)%float) (sorted_desc (spikes_of completed)) =
     filter (fun r => (sort_key r =? k)%float) (spikes_of completed)).
Proof.
  intros Hs Hne. rewrite (run_scan_publishes st catalog completed s ss Hs Hne). simpl.
  pose proof (spikes_good_keys completed) as G.
  split; [reflexivity|]. split; [reflexivity|]. split.
  - apply Permutation_map, sorted_desc_perm.
  - split; [apply sorted_desc_sorted; exact G|].
    intros k. apply (sorted_desc_stable_acc k (spikes_of completed) []); auto; constructor.
Qed.

(** ** C6 *)

Lemma next_period_start_grid (now : Z) :
  next_period_start now = 300000000 * (now / 300000000 + 1).
Proof.
  unfold next_period_start, align_to_kline_period, dt_replace_minute, dt_minute,
    dt_second, dt_microsecond, aggregation_interval, US_PER_MIN, US_PER_S.
  assert (E1 : now / (60 * 1000000) = now / 1000000 / 60)
    by (rewrite Z.div_div; [reflexivity|lia|lia]).
  assert (E2 : now / 300000000 = now / (60 * 1000000) / 5)
    by (rewrite Z.div_div; [reflexivity|lia|lia]).
  rewrite E2. rewrite !E1.
  set (a := now / 1000000) in *. set (b := a / 60) in *.
  assert (E3 : b / 5 = 12 * (b / 60) + (b mod 60) / 5).
  { rewrite (Z.div_mod b 60) at 1 by lia.
    rewrite (Z.mul_comm 60 (b / 60)).
    replace (b / 60 * 60) with (b / 60 * 12 * 5) by lia.
    rewrite Z.div_add_l by lia. ring. }
  rewrite E3.
  pose proof (Z.div_mod now 1000000 ltac:(lia)).
  pose proof (Z.div_mod a 60 ltac:(lia)).
  pose proof (Z.div_mod b 60 ltac:(lia)).
  pose proof (Z.mod_pos_bound b 60 ltac:(lia)).
  fold a in H. fold b in H0. clear E1 E2. clearbody a b.
  set (c := b / 60) in *. set (m := b mod 60) in *.
  set (r := now mod 1000000) in *. set (s := a mod 60) in *.
  set (d := m / 5) in *.
  clearbody c m r s d.
  lia.
Qed.

(** C6: the next period start is the least multiple of five minutes
    (counted from the epoch, hence on the wall-clock grid :00, :05, ...)
    strictly after the clock reading; 12:07:33 gives 12:10:00 and 12:10:00
    gives 12:15:00 on any day; the scheduler sleeps only for a positive
    duration, and with no time elapsed between the two clock readings it
    sleeps exactly until the boundary. *)
Theorem next_boundary_smallest (now : Z) :
  let n := next_period_start now in
  n mod (aggregation_interval * US_PER_MIN) = 0 /\
  now < n /\
  (forall g, g mod (aggregation_interval * US_PER_MIN) = 0 -> now < g -> n <= g) /\
  (forall day, next_period_start (clock day 12 7 33) = clock day 12 10 0 /\
               next_period_start (clock day 12 10 0) = clock day 12 15 0) /\
  (forall now2, match wait_for_next_kline_period now now2 with
                | Some w => 0 < w
                | None => True
                end) /\
  wait_for_next_kline_period now now = Some (n - now).
Proof.
  intros n. unfold n. rewrite !next_period_start_grid.
  unfold aggregation_interval, US_PER_MIN, US_PER_S.
  pose proof (Z.div_mod now 300000000 ltac:(lia)) as Dn.
  pose proof (Z.mod_pos_bound now 300000000 ltac:(lia)) as Bn.
  repeat split.
  - replace (5 * (60 * 1000000)) with 300000000 by reflexivity.
    rewrite Z.mul_comm, Z.mod_mul by lia. reflexivity.
  - lia.
  - intros g Hg Hlt.
    pose proof (Z.div_mod g 300000000 ltac:(lia)) as Dg.
    replace (5 * (60 * 1000000)) with 300000000 in Hg by reflexivity. lia.
  - rewrite next_period_start_grid. unfold clock, US_PER_MIN, US_PER_S.
    replace (((day * 24 + 12) * 60 + 7) * (60 * 1000000) + 33 * 1000000)
      with ((288 * day + 145) * 300000000 + 153000000) by ring.
    rewrite Z.div_add_l by lia. change (153000000 / 300000000) with 0. ring.
  - rewrite next_period_start_grid. unfold clock, US_PER_MIN, US_PER_S.
    replace (((day * 24 + 12) * 60 + 10) * (60 * 1000000) + 0 * 1000000)
      with ((288 * day + 146) * 300000000 + 0) by ring.
    rewrite Z.div_add_l by lia. change (0 / 300000000) with 0. ring.
  - intros now2. unfold wait_for_next_kline_period.
    destruct (Z.ltb_spec 0 (next_period_start now - now2)); lia.
  - unfold wait_for_next_kline_period. rewrite next_period_start_grid.
    destruct (Z.ltb_spec 0 (300000000 * (now / 300000000 + 1) - now)); [reflexivity|lia].
Qed.

(** ** C4 *)

Lemma spike_not_nan (r : oi_result) : is_spike r = true -> is_nan (res_change r) = false.
Proof.
  unfold is_spike. intros H. apply good_abs in H. revert H.
  unfold good, is_nan. rewrite abs_spec, eqb_spec. unfold SFeqb, SFcompare.
  destruct (Prim2SF (res_change r)) as [[]|[]| |[] ? ?]; simpl; intros; sf_cases;
    try contradiction; rewrite ?Z.compare_refl, ?Pos.compare_cont_refl; reflexivity.
Qed.

(** C4 (amended): [get_oi_change] returns [None] exactly when the response
    is not a list of at least two entries, when one of the first two
    entries lacks a [sumOpenInterestValue] that [float()] accepts, or when
    the prior value is zero. [float()] accepts JSON booleans and the strings
    "nan", "inf" and "-inf", so such symbols are kept. A spike's change is
    never NaN, so a NaN change never reaches the published globals; an
    infinite change passes the threshold and, in a cycle over a non-empty
    universe, its symbol is published in both globals. *)
Theorem symbol_exclusion (symbol : json) (data : option json) :
  (get_oi_change data symbol = None <->
     (forall l, data = Some (JList l) -> (List.length l < 2)%nat) \/
     (exists l i, data = Some (JList l) /\ (i < 2)%nat /\
        forall v, getitem_str (nth i l JNull) "sumOpenInterestValue" = Ok v ->
          exists e, py_float v = Raise e) \/
     (exists l v0 oi_old, data = Some (JList l) /\
        getitem_str (nth 0 l JNull) "sumOpenInterestValue" = Ok v0 /\
        py_float v0 = Ok oi_old /\ (oi_old =? 0)%float = true)) /\
  (forall b, py_float (JBool b) = Ok (if b then 1%float else 0%float)) /\
  (exists x, py_float (JStr "nan") = Ok x /\ is_nan x = true) /\
  py_float (JStr "inf") = Ok infinity /\
  py_float (JStr "-inf") = Ok neg_infinity /\
  (forall completed r, In r (spikes_of completed) -> is_nan (res_change r) = false) /\
  (forall st catalog completed s ss sym d r,
     get_usdtm_symbols catalog = Ok (s :: ss) ->
     In (sym, d) completed ->
     get_oi_change d sym = Some r ->
     res_change r = infinity \/ res_change r = neg_infinity ->
     In sym (coin_pool (scan_state (run_scan st catalog completed))) /\
     In sym (oi_top (scan_state (run_scan st catalog completed)))).
Proof.
  split; [split|].
  { intros Hn. unfold get_oi_change in Hn.
    destruct data as [[| | | | |l|]|];
      try (left; intros l' E; discriminate E).
    destruct (Nat.ltb_spec (List.length l) 2) as [Hlt|Hge].
    { left. intros l' E. inversion E; subst. exact Hlt. }
    right. unfold oi_try in Hn.
    destruct (getitem_str (nth 0 l JNull) _) as [v0|e] eqn:G0; simpl in Hn.
    2:{ left. exists l, 0%nat. split; [reflexivity|split; [lia|]].
        intros v Hv. rewrite G0 in Hv. discriminate Hv. }
    destruct (py_float v0) as [o|e] eqn:F0; simpl in Hn.
    2:{ left. exists l, 0%nat. split; [reflexivity|split; [lia|]].
        intros v Hv. rewrite G0 in Hv. inversion Hv; subst. exists e; exact F0. }
    destruct (getitem_str (nth 1 l JNull) _) as [v1|e] eqn:G1; simpl in Hn.
    2:{ left. exists l, 1%nat. split; [reflexivity|split; [lia|]].
        intros v Hv. rewrite G1 in Hv. discriminate Hv. }
    destruct (py_float v1) as [n|e] eqn:F1; simpl in Hn.
    2:{ left. exists l, 1%nat. split; [reflexivity|split; [lia|]].
        intros v Hv. rewrite G1 in Hv. inversion Hv; subst. exists e; exact F1. }
    destruct (o =? 0)%float eqn:Z0; simpl in Hn; [|discriminate Hn].
    right. exists l, v0, o. auto. }
  { intros [H | [(l & i & -> & Hi & Hv) | (l & v0 & o & -> & G0 & F0 & Z0)]].
    - unfold get_oi_change. destruct data as [[]|]; try reflexivity.
      specialize (H l eq_refl). destruct (Nat.ltb_spec (List.length l) 2); [reflexivity|lia].
    - unfold get_oi_change.
      destruct (Nat.ltb (List.length l) 2); [reflexivity|].
      unfold oi_try.
      destruct (getitem_str (nth 0 l JNull) _) as [v0|] eqn:G0; simpl; [|reflexivity].
      destruct (py_float v0) as [o|] eqn:F0; simpl; [|reflexivity].
      destruct (getitem_str (nth 1 l JNull) _) as [v1|] eqn:G1; simpl; [|reflexivity].
      destruct (py_float v1) as [n|] eqn:F1; simpl; [|reflexivity].
      exfalso. destruct i as [|[|i]]; [| |lia].
      + destruct (Hv v0 G0) as [e He]. congruence.
      + destruct (Hv v1 G1) as [e He]. congruence.
    - unfold get_oi_change.
      destruct (Nat.ltb (List.length l) 2); [reflexivity|].
      unfold oi_try. rewrite G0; simpl. rewrite F0; simpl.
      destruct (getitem_str (nth 1 l JNull) _) as [v1|]; simpl; [|reflexivity].
      destruct (py_float v1); simpl; [|reflexivity]. rewrite Z0. reflexivity. }
  split; [intros []; reflexivity|].
  split; [eexists; split; vm_compute; reflexivity|].
  split; [vm_compute; reflexivity|].
  split; [vm_compute; reflexivity|].
  split.
  { intros completed r Hr. apply filter_In in Hr as [_ Hr]. apply spike_not_nan, Hr. }
  intros st catalog completed s ss sym d r Hs Hin Hr Hinf.
  assert (Hsp : In r (spikes_of completed)).
  { unfold spikes_of. apply filter_In. split; [eapply collect_in; eassumption|].
    unfold is_spike. destruct Hinf as [E|E]; rewrite E; vm_compute; reflexivity. }
  assert (Hne : spikes_of completed <> []) by (intros E; rewrite E in Hsp; contradiction).
  rewrite (run_scan_publishes st catalog completed s ss Hs Hne). simpl.
  rewrite <- (get_oi_change_sym d sym r Hr).
  split; apply in_map; [exact Hsp|].
  apply (Permutation_in _ (Permutation_sym (sorted_desc_perm _))). exact Hsp.
Qed.

(** C4 refuted: a JSON [true] is not a number, yet [float(True)] is [1.0],
    so the symbol stays in the results with a change of 19900%, passes the
    threshold and is published; finite values can also give an infinite
    change (1e-300 to 1e300), which passes the threshold as well. *)
Lemma symbol_exclusion_counterexample :
  get_oi_change (Some (JList [oi_entry (JBool true); oi_entry (JStr "200")])) (JStr "AUSDT")
    = Some (JStr "AUSDT", 19900%float, 200%float) /\
  publish initial (spikes_of [(JStr "AUSDT", Some (JList [oi_entry (JBool true); oi_entry (JStr "200")]))])
    = {| coin_pool := [JStr "AUSDT"]; oi_top := [JStr "AUSDT"] |} /\
  (exists oi_now, get_oi_change (Some (JList [oi_entry (JStr "1e-300"); oi_entry (JStr "1e300")]))
                    (JStr "BUSDT") = Some (JStr "BUSDT", infinity, oi_now)) /\
  is_spike (JStr "BUSDT", infinity, 1%float) = true.
Proof.
  split; [vm_compute; reflexivity|].
  split; [vm_compute; reflexivity|].
  split; [eexists; vm_compute; reflexivity|].
  vm_compute; reflexivity.
Qed.

(** ** C7 *)

(** C7: on a malformed catalog the comprehension raises instead of
    returning the empty list: a matching entry without a [symbol] key gives
    [KeyError], an entry that is not a dict gives [AttributeError]. The
    exception leaves [run_scan], which ends the [scheduler] task. A
    well-formed catalog gives the matching symbols. *)
Theorem catalog_malformed_raises :
  get_usdtm_symbols (Some (JObj [("symbols", JList
    [JObj [("contractType", JStr "PERPETUAL"); ("quoteAsset", JStr "USDT");
           ("status", JStr "TRADING")]])])) = Raise KeyError /\
  get_usdtm_symbols (Some (JObj [("symbols", JList [JInt 1])])) = Raise AttributeError /\
  scan_outcome (run_scan initial (Some (JObj [("symbols", JList [JInt 1])])) []) =
    Raise AttributeError /\
  get_usdtm_symbols (Some (JObj [("symbols", JList
    [catalog_entry "BTCUSDT" "PERPETUAL" "USDT" "TRADING";
     catalog_entry "ETHUSDC" "PERPETUAL" "USDC" "TRADING";
     catalog_entry "BTCUSDT_251226" "CURRENT_QUARTER" "USDT" "TRADING";
     catalog_entry "XYZUSDT" "PERPETUAL" "USDT" "SETTLING"])])) = Ok [JStr "BTCUSDT"].
Proof. repeat split; vm_compute; reflexivity. Qed.

(** ** C9 *)

(** Instruction lists where each [ISetPool] is directly followed by an
    [ISetTop], with no [IAwait] in between. *)
Inductive paired : list instr -> Prop :=
| paired_nil : paired []
| paired_await c : paired c -> paired (IAwait :: c)
| paired_publish p t c : paired c -> paired (ISetPool p :: ISetTop t :: c).

Lemma paired_awaits (l : list (json * option json)) (c : list instr) :
  paired c -> paired (map (fun _ => IAwait) l ++ c)%list.
Proof.
  intros H. induction l as [|x l IH]; simpl; [exact H|]. constructor; exact IH.
Qed.

Lemma cycle_code_paired (catalog : option json) (completed : list (json * option json)) :
  paired (cycle_code catalog completed).
Proof.
  unfold cycle_code. do 2 constructor. apply paired_awaits.
  unfold publish_code.
  destruct (get_usdtm_symbols catalog) as [[|s ss]|e]; try constructor.
  destruct (spikes_of completed); repeat constructor.
Qed.

Definition loop_inv (l : loop) : Prop :=
  (pool_tag l = top_tag l /\ paired (pc l)) \/
  (running l = true /\ pool_tag l = iteration l /\
   exists t rest, pc l = ISetTop t :: rest /\ paired rest).

Lemma loop_inv_step (l l' : loop) : loop_inv l -> loop_step l l' -> loop_inv l'.
Proof.
  unfold loop_inv. intros Hinv Hstep.
  destruct Hstep; simpl in *.
  - destruct Hinv as [[_ Hp] | (_ & _ & t & rest' & E & _)]; [|discriminate].
    inversion Hp; subst. right. repeat split. eauto.
  - destruct Hinv as [[_ Hp] | (_ & Hn & t & rest' & E & Hr)]; [inversion Hp|].
    inversion E; subst. left. split; [reflexivity|exact Hr].
  - destruct Hinv as [[He Hp] | (_ & _ & t & rest' & E & _)]; [|discriminate].
    inversion Hp; subst. left. auto.
  - destruct Hinv as [H | (Hr & _)]; [left; exact H | discriminate].
  - destruct Hinv as [[He _] | (_ & _ & t & rest' & E & _)]; [|discriminate].
    left. split; [exact He | apply cycle_code_paired].
Qed.

(** C9: whenever a handler runs, both globals were last assigned by the
    same [scheduler] iteration: the two assignments of [run_scan] have no
    [await] between them, so no handler runs between them. *)
Theorem handlers_see_one_cycle (l : loop) (obs : list json * list json) :
  loop_reachable l -> handler_observes l obs -> pool_tag l = top_tag l.
Proof.
  intros R [Hrun _].
  assert (I : loop_inv l).
  { clear Hrun. induction R as [|l l' _ IH S].
    - left. split; [reflexivity|constructor].
    - eapply loop_inv_step; eauto. }
  destruct I as [[H _] | (Hr & _)]; [exact H|congruence].
Qed.

(** * Witnesses *)

Lemma get_oi_change_formula_witness :
  get_oi_change (Some (JList [oi_entry (JStr "50"); oi_entry (JStr "44")])) (JStr "C") =
    Some (JStr "C", ((44 - 50) / 50 * 100)%float, 44%float) /\
  In (JStr "C", ((44 - 50) / 50 * 100)%float, 44%float) (collect example_completed).
Proof.
  apply (get_oi_change_formula example_completed (JStr "C")
           [oi_entry (JStr "50"); oi_entry (JStr "44")]
           (JStr "50") (JStr "44") 50%float 44%float).
  - simpl. right; left; reflexivity.
  - simpl. lia.
  - reflexivity.
  - reflexivity.
  - vm_compute; reflexivity.
  - vm_compute; reflexivity.
  - vm_compute; reflexivity.
Defined.

Lemma ranked_spikes_sorted_witness :
  coin_pool (scan_state (run_scan initial example_catalog example_completed)) =
    [JStr "A"; JStr "C"] /\
  oi_top (scan_state (run_scan initial example_catalog example_completed)) =
    [JStr "C"; JStr "A"].
Proof.
  destruct (ranked_spikes_sorted initial example_catalog example_completed
              (JStr "A") [JStr "B"; JStr "C"]) as (Hp & Ht & _).
  - vm_compute; reflexivity.
  - vm_compute; discriminate.
  - rewrite Hp, Ht. split; vm_compute; reflexivity.
Defined.

Lemma no_spikes_keeps_state_witness :
  scan_state (run_scan {| coin_pool := [JStr "A"; JStr "C"]; oi_top := [JStr "C"; JStr "A"] |}
                example_catalog [(JStr "B", Some (JList [oi_entry (JStr "100"); oi_entry (JStr "100")]))])
  = {| coin_pool := [JStr "A"; JStr "C"]; oi_top := [JStr "C"; JStr "A"] |}.
Proof.
  apply no_spikes_keeps_state. vm_compute; reflexivity.
Defined.

Lemma empty_universe_aborts_witness :
  scan_state (run_scan initial None example_completed) = initial /\
  scan_requests (run_scan initial None example_completed) = [].
Proof.
  apply (proj2 (empty_universe_aborts initial None example_completed)).
  left; reflexivity.
Defined.

Lemma symbol_exclusion_witness :
  get_oi_change (Some (JList [oi_entry (JStr (String "028"%char "1")); oi_entry (JStr "5")]))
    (JStr "Z") = None /\
  In (JStr "B") (coin_pool (scan_state (run_scan initial example_catalog
    [(JStr "B", Some (JList [oi_entry (JStr "1e-300"); oi_entry (JStr "1e300")]))]))) /\
  In (JStr "B") (oi_top (scan_state (run_scan initial example_catalog
    [(JStr "B", Some (JList [oi_entry (JStr "1e-300"); oi_entry (JStr "1e300")]))]))).
Proof.
  destruct (symbol_exclusion (JStr "Z")
              (Some (JList [oi_entry (JStr (String "028"%char "1")); oi_entry (JStr "5")])))
    as ([_ Hex] & _ & _ & _ & _ & _ & Hinf).
  split.
  - apply Hex. right; left.
    exists [oi_entry (JStr (String "028"%char "1")); oi_entry (JStr "5")], 0%nat.
    split; [reflexivity|split; [lia|]].
    intros v Hv. vm_compute in Hv. inversion Hv; subst. exists ValueError.
    vm_compute; reflexivity.
  - apply (Hinf initial example_catalog
             [(JStr "B", Some (JList [oi_entry (JStr "1e-300"); oi_entry (JStr "1e300")]))]
             (JStr "A") [JStr "B"; JStr "C"] (JStr "B")
             (Some (JList [oi_entry (JStr "1e-300"); oi_entry (JStr "1e300")]))
             (JStr "B", infinity, 0x1.7e43c8800759cp+996%float)).
    + vm_compute; reflexivity.
    + left; reflexivity.
    + vm_compute; reflexivity.
    + left; reflexivity.
Defined.

Lemma next_boundary_smallest_witness :
  next_period_start (clock 20000 12 7 33) <= clock 20000 12 10 0.
Proof.
  destruct (next_boundary_smallest (clock 20000 12 7 33)) as (_ & _ & H & _).
  apply H; vm_compute; reflexivity.
Defined.

Lemma handlers_see_one_cycle_witness :
  handler_observes after_first_publish ([JStr "A"; JStr "C"], [JStr "C"; JStr "A"]) /\
  pool_tag after_first_publish = top_tag after_first_publish.
Proof.
  assert (Hcode : cycle_code example_catalog example_completed =
    [IAwait; IAwait; IAwait; IAwait; IAwait;
     ISetPool [JStr "A"; JStr "C"]; ISetTop [JStr "C"; JStr "A"]]) by (vm_compute; reflexivity).
  split; [split; reflexivity|].
  apply (handlers_see_one_cycle after_first_publish ([JStr "A"; JStr "C"], [JStr "C"; JStr "A"]));
    [|split; reflexivity].
  (* second iteration: its first [await] *)
  eapply lr_step; [|apply step_await].
  eapply lr_step; [|apply (step_next_iteration _ 1 1 1 None [])].
  (* first iteration: the two assignments *)
  eapply lr_step; [|apply (step_set_top {| coin_pool := [JStr "A"; JStr "C"]; oi_top := [] |}
                                        1 0 1 [JStr "C"; JStr "A"] [])].
  eapply lr_step; [|apply (step_set_pool initial 0 0 1 [JStr "A"; JStr "C"]
                                         [ISetTop [JStr "C"; JStr "A"]])].
  (* the five suspensions: the sleep, exchangeInfo, three tasks *)
  do 5 (eapply lr_step; [|apply step_resume]; eapply lr_step; [|apply step_await]).
  rewrite <- Hcode.
  eapply lr_step; [|apply (step_next_iteration initial 0 0 0 example_catalog example_completed)].
  eapply lr_step; [|apply step_resume].
  apply lr_init.
Defined.

Lemma first_two_entries_used_witness :
  get_oi_change (Some (JList [oi_entry (JStr "100"); oi_entry (JStr "109"); oi_entry (JStr "1")]))
    (JStr "A") =
  get_oi_change (Some (JList [oi_entry (JStr "100"); oi_entry (JStr "109")])) (JStr "A").
Proof.
  apply (first_two_entries_used [oi_entry (JStr "100"); oi_entry (JStr "109"); oi_entry (JStr "1")]
           (JStr "A")).
  simpl; lia.
Defined.

(** * Further properties of the code *)

(** ** [get_usdtm_symbols] *)

Lemma select_symbols_wellformed (items : list json) :
  Forall (fun it => exists kvs v, it = JObj kvs /\ obj_get kvs "symbol" = Some v) items ->
  select_symbols items = Ok (flat_map usdtm_entry_symbol items).
Proof.
  induction 1 as [|it items (kvs & v & -> & Hs) _ IH]; [reflexivity|].
  simpl. unfold field.
  destruct (obj_get kvs "contractType") as [ct|]; simpl;
    [destruct (eq_str ct "PERPETUAL")|]; simpl; try exact IH.
  destruct (obj_get kvs "quoteAsset") as [qa|]; simpl;
    [destruct (eq_str qa "USDT")|]; simpl; try exact IH.
  destruct (obj_get kvs "status") as [st|]; simpl;
    [destruct (eq_str st "TRADING")|]; simpl; try exact IH.
  rewrite Hs; simpl. rewrite IH. reflexivity.
Qed.

(** A catalog object whose [symbols] list holds only dicts with a [symbol]
    key gives, in catalog order, the symbols of the entries whose
    [contractType] is PERPETUAL, [quoteAsset] USDT and [status] TRADING. *)
Theorem usdtm_symbols_wellformed (kvs : list (string * json)) (items : list json) :
  obj_get kvs "symbols" = Some (JList items) ->
  Forall (fun it => exists ikvs v, it = JObj ikvs /\ obj_get ikvs "symbol" = Some v) items ->
  get_usdtm_symbols (Some (JObj kvs)) = Ok (flat_map usdtm_entry_symbol items).
Proof.
  intros Hs Hw. unfold get_usdtm_symbols.
  assert (Ht : truthy (JObj kvs) = true).
  { destruct kvs; [discriminate|reflexivity]. }
  rewrite Ht. simpl. rewrite Hs. simpl.
  apply select_symbols_wellformed; exact Hw.
Qed.

(** No catalog, a falsy response ([null], [false], [0], [""], [[]], [{}]),
    an object without a [symbols] key, a list without the string
    "symbols", or an empty [symbols] list or dict: the universe is empty. *)
Theorem usdtm_symbols_empty_cases :
  get_usdtm_symbols None = Ok [] /\
  (forall d, truthy d = false -> get_usdtm_symbols (Some d) = Ok []) /\
  (forall kvs, obj_get kvs "symbols" = None -> get_usdtm_symbols (Some (JObj kvs)) = Ok []) /\
  (forall l, existsb (fun v => eq_str v "symbols") l = false ->
     get_usdtm_symbols (Some (JList l)) = Ok []) /\
  (forall kvs, obj_get kvs "symbols" = Some (JList []) \/ obj_get kvs "symbols" = Some (JObj []) ->
     get_usdtm_symbols (Some (JObj kvs)) = Ok []).
Proof.
  split; [reflexivity|]. split; [|split; [|split]].
  - intros d H. simpl. rewrite H. reflexivity.
  - intros kvs H. simpl. rewrite H.
    destruct (List.length kvs =? 0)%nat; reflexivity.
  - intros l H. simpl. rewrite H.
    destruct (List.length l =? 0)%nat; reflexivity.
  - intros kvs [H|H]; simpl; rewrite H;
      destruct (List.length kvs =? 0)%nat; reflexivity.
Qed.

(** ** [get_oi_change] *)

(** A result of [get_oi_change] carries the requested symbol and comes from
    a list response of at least two entries whose first two entries both
    hold a [sumOpenInterestValue] accepted by [float()], the first non-zero;
    the current value is the second one. *)
Theorem oi_change_result_origin (data : option json) (symbol : json) (r : oi_result) :
  get_oi_change data symbol = Some r ->
  res_sym r = symbol /\
  exists l v0 v1 oi_old,
    data = Some (JList l) /\ (2 <= List.length l)%nat /\
    getitem_str (nth 0 l JNull) "sumOpenInterestValue" = Ok v0 /\
    getitem_str (nth 1 l JNull) "sumOpenInterestValue" = Ok v1 /\
    py_float v0 = Ok oi_old /\ (oi_old =? 0)%float = false /\
    py_float v1 = Ok (snd r).
Proof.
  unfold get_oi_change. destruct data as [[]|]; try discriminate.
  destruct (Nat.ltb_spec (List.length l) 2); [discriminate|].
  unfold oi_try.
  destruct (getitem_str (nth 0 l JNull) _) as [v0|] eqn:G0; simpl; [|discriminate].
  destruct (py_float v0) as [o|] eqn:F0; simpl; [|discriminate].
  destruct (getitem_str (nth 1 l JNull) _) as [v1|] eqn:G1; simpl; [|discriminate].
  destruct (py_float v1) as [n|] eqn:F1; simpl; [|discriminate].
  destruct (o =? 0)%float eqn:Z0; [discriminate|].
  intros Hr. inversion Hr; subst. split; [reflexivity|].
  exists l, v0, v1, o. repeat split; auto.
Qed.

(** ** [run_scan] *)

Definition answered (c : json * option json) : bool :=
  match get_oi_change (snd c) (fst c) with Some _ => true | None => false end.

Lemma collect_syms (completed : list (json * option json)) :
  map res_sym (collect completed) = map fst (filter answered completed).
Proof.
  induction completed as [|[s d] rest IH]; simpl; [reflexivity|].
  unfold answered at 1. simpl.
  destruct (get_oi_change d s) as [r|] eqn:E; simpl; [|exact IH].
  rewrite (get_oi_change_sym d s r E), IH. reflexivity.
Qed.

Lemma map_filter_in {A B} (f : A -> B) (p : A -> bool) (l : list A) (b : B) :
  In b (map f (filter p l)) -> In b (map f l).
Proof.
  rewrite !in_map_iff. intros (a & <- & Ha). apply filter_In in Ha as [Ha _].
  exists a; split; [reflexivity|exact Ha].
Qed.

Lemma map_filter_nodup {A B} (keep : A -> bool) (key : A -> B) (xs : list A) :
  NoDup (map key xs) -> NoDup (map key (filter keep xs)).
Proof.
  induction xs as [|x xs IH]; intros Hn; [constructor|].
  simpl in Hn |- *. apply NoDup_cons_iff in Hn as [Hx Hxs].
  destruct (keep x); [|exact (IH Hxs)].
  apply NoDup_cons; [|exact (IH Hxs)].
  intros Hin. apply Hx. apply (map_filter_in key keep xs (key x) Hin).
Qed.

Lemma map_filter_length {A B} (f : A -> B) (p : A -> bool) (l : list A) :
  (List.length (map f (filter p l)) <= List.length (map f l))%nat.
Proof.
  rewrite !length_map. induction l as [|a l IH]; simpl; [lia|].
  destruct (p a); simpl; lia.
Qed.

Lemma spike_syms_in (completed : list (json * option json)) (s : json) :
  In s (map res_sym (spikes_of completed)) -> In s (map fst completed).
Proof.
  unfold spikes_of. intros H. apply map_filter_in in H.
  rewrite collect_syms in H. apply map_filter_in in H. exact H.
Qed.

Lemma spike_syms_nodup (completed : list (json * option json)) :
  NoDup (map fst completed) -> NoDup (map res_sym (spikes_of completed)).
Proof.
  intros H. unfold spikes_of. apply (map_filter_nodup is_spike res_sym).
  rewrite collect_syms. apply (map_filter_nodup answered fst). exact H.
Qed.

Lemma spike_syms_length (completed : list (json * option json)) :
  (List.length (spikes_of completed) <= List.length completed)%nat.
Proof.
  unfold spikes_of.
  pose proof (map_filter_length res_sym is_spike (collect completed)) as H1.
  pose proof (map_filter_length fst answered completed) as H2.
  rewrite <- collect_syms in H2. rewrite !length_map in H1, H2. lia.
Qed.

Lemma run_scan_cases (st : pstate) (catalog : option json)
    (completed : list (json * option json)) :
  scan_state (run_scan st catalog completed) = st \/
  (exists s ss, get_usdtm_symbols catalog = Ok (s :: ss)) /\
  spikes_of completed <> [] /\
  coin_pool (scan_state (run_scan st catalog completed)) = map res_sym (spikes_of completed) /\
  oi_top (scan_state (run_scan st catalog completed)) =
    map res_sym (sorted_desc (spikes_of completed)).
Proof.
  unfold scan_state, run_scan.
  destruct (get_usdtm_symbols catalog) as [[|s ss]|e]; simpl; try (left; reflexivity).
  unfold publish. destruct (spikes_of completed) as [|r rs] eqn:E; [left; reflexivity|].
  right. split; [eauto|]. split; [discriminate|]. split; reflexivity.
Qed.

(** After a cycle over the universe [symbols], with every task completed
    once, the globals are either untouched or hold only symbols of the
    universe: [coin_pool] and [oi_top] never name a contract that was not
    requested in this cycle. *)
Theorem run_scan_pool_from_universe (st : pstate) (catalog : option json)
    (completed : list (json * option json)) (symbols : list json) :
  get_usdtm_symbols catalog = Ok symbols ->
  completion_ok catalog completed ->
  scan_state (run_scan st catalog completed) = st \/
  (forall s, In s (coin_pool (scan_state (run_scan st catalog completed))) -> In s symbols) /\
  (forall s, In s (oi_top (scan_state (run_scan st catalog completed))) -> In s symbols).
Proof.
  intros Hs Hc. pose proof (Hc symbols Hs) as HP.
  destruct (run_scan_cases st catalog completed) as [E | (_ & _ & Hp & Ht)]; [left; exact E|].
  right. rewrite Hp, Ht. split; intros s Hin.
  - apply (Permutation_in _ HP). apply spike_syms_in. exact Hin.
  - apply (Permutation_in _ HP). apply spike_syms_in.
    eapply Permutation_in; [|exact Hin]. apply Permutation_map, sorted_desc_perm.
Qed.

(** A universe without duplicate symbols gives, after a cycle that changes
    the globals, [coin_pool] and [oi_top] without duplicates. *)
Theorem run_scan_no_duplicates (st : pstate) (catalog : option json)
    (completed : list (json * option json)) (symbols : list json) :
  get_usdtm_symbols catalog = Ok symbols ->
  completion_ok catalog completed ->
  NoDup symbols ->
  scan_state (run_scan st catalog completed) = st \/
  (NoDup (coin_pool (scan_state (run_scan st catalog completed))) /\
   NoDup (oi_top (scan_state (run_scan st catalog completed)))).
Proof.
  intros Hs Hc Hn. pose proof (Hc symbols Hs) as HP.
  destruct (run_scan_cases st catalog completed) as [E | (_ & _ & Hp & Ht)]; [left; exact E|].
  right. rewrite Hp, Ht.
  assert (H1 : NoDup (map res_sym (spikes_of completed))).
  { apply spike_syms_nodup. eapply Permutation_NoDup; [symmetry; exact HP|exact Hn]. }
  split; [exact H1|].
  eapply Permutation_NoDup; [|exact H1].
  symmetry. apply Permutation_map, sorted_desc_perm.
Qed.

(** A cycle that changes the globals publishes at most as many symbols as
    the universe holds. *)
Theorem run_scan_pool_size (st : pstate) (catalog : option json)
    (completed : list (json * option json)) (symbols : list json) :
  get_usdtm_symbols catalog = Ok symbols ->
  completion_ok catalog completed ->
  scan_state (run_scan st catalog completed) = st \/
  ((List.length (coin_pool (scan_state (run_scan st catalog completed))) <= List.length symbols)%nat /\
   (List.length (oi_top (scan_state (run_scan st catalog completed))) <= List.length symbols)%nat).
Proof.
  intros Hs Hc. pose proof (Permutation_length (Hc symbols Hs)) as HL.
  rewrite length_map in HL.
  destruct (run_scan_cases st catalog completed) as [E | (_ & _ & Hp & Ht)]; [left; exact E|].
  right. rewrite Hp, Ht, !length_map.
  rewrite (Permutation_length (sorted_desc_perm _)).
  pose proof (spike_syms_length completed). lia.
Qed.

(** In every state the globals reach, [/api/coin-pool] and [/api/oi-top]
    report the same [count]. *)
Theorem reachable_equal_counts (st : pstate) :
  reachable st ->
  List.length (coin_pool st) = List.length (oi_top st).
Proof.
  intros R.
  assert (Hpub : exists sp, published_from st sp).
  { induction R as [|st catalog completed _ [sp IH] _ _].
    - exists []. repeat split; constructor.
    - eapply run_scan_published; exact IH. }
  destruct Hpub as (sp & _ & Hp & Ht). rewrite Hp, Ht, !length_map.
  symmetry. apply Permutation_length, sorted_desc_perm.
Qed.

(** Once published, the lists never become empty again: a cycle either
    leaves them or overwrites them with a non-empty spike set. *)
Theorem run_scan_keeps_nonempty (st : pstate) (catalog : option json)
    (completed : list (json * option json)) :
  coin_pool st <> [] -> oi_top st <> [] ->
  coin_pool (scan_state (run_scan st catalog completed)) <> [] /\
  oi_top (scan_state (run_scan st catalog completed)) <> [].
Proof.
  intros Hp Ht.
  destruct (run_scan_cases st catalog completed) as [E | (_ & Hne & Hp' & Ht')].
  - rewrite E. split; assumption.
  - rewrite Hp', Ht'. split.
    + destruct (spikes_of completed); [contradiction|discriminate].
    + intros Hm. apply map_eq_nil in Hm. apply Hne.
      apply Permutation_nil. rewrite <- Hm. apply sorted_desc_perm.
Qed.

Lemma insert_desc_last (x : oi_result) (acc : list oi_result) :
  (forall y, In y acc -> (sort_key y <? sort_key x)%float = false) ->
  insert_desc x acc = (acc ++ [x])%list.
Proof.
  induction acc as [|y r IH]; intros H; simpl; [reflexivity|].
  rewrite (H y (or_introl eq_refl)). rewrite IH; [reflexivity|].
  intros z Hz. apply H. right; exact Hz.
Qed.

Lemma sorted_desc_id_acc (l acc : list oi_result) :
  good_keys (acc ++ l) -> desc (acc ++ l) ->
  fold_left (fun acc x => insert_desc x acc) l acc = (acc ++ l)%list.
Proof.
  revert acc; induction l as [|x l IH]; intros acc G S; simpl; [rewrite app_nil_r; reflexivity|].
  rewrite insert_desc_last.
  - rewrite IH; rewrite <- app_assoc; [reflexivity|assumption|assumption].
  - intros y Hy. unfold good_keys, desc in *.
    destruct (sort_key y <? sort_key x)%float eqn:E; [|reflexivity].
    exfalso.
    assert (Hyx : (sort_key x <=? sort_key y)%float = true).
    { clear IH G. induction acc as [|a acc IHa]; [contradiction|].
      simpl in S. inversion S as [|? ? S' F]; subst.
      destruct Hy as [<- | Hy].
      - rewrite Forall_forall in F. apply F. apply in_or_app; right; left; reflexivity.
      - apply IHa; assumption. }
    rewrite Forall_forall in G.
    rewrite (flt_nle (sort_key y) (sort_key x)) in Hyx; [discriminate| | |exact E];
      apply G; apply in_or_app; [left; exact Hy|right; left; reflexivity].
Qed.

Lemma sorted_desc_id (l : list oi_result) :
  good_keys l -> desc l -> sorted_desc l = l.
Proof. intros G S. apply (sorted_desc_id_acc l []); assumption. Qed.

(** When the tasks happen to complete in descending order of [abs(change)]
    among the spikes, the sort keeps that order: after the cycle [oi_top]
    equals [coin_pool]. *)
Theorem run_scan_sorted_completion (st : pstate) (catalog : option json)
    (completed : list (json * option json)) (s : json) (ss : list json) :
  get_usdtm_symbols catalog = Ok (s :: ss) ->
  spikes_of completed <> [] ->
  StronglySorted (fun a b => (sort_key b <=? sort_key a)%float = true) (spikes_of completed) ->
  oi_top (scan_state (run_scan st catalog completed)) =
  coin_pool (scan_state (run_scan st catalog completed)).
Proof.
  intros Hs Hne Hd. unfold scan_state, run_scan. rewrite Hs. simpl.
  unfold publish. destruct (spikes_of completed) as [|r rs] eqn:E; [contradiction|].
  simpl. rewrite sorted_desc_id; [reflexivity| |exact Hd].
  rewrite <- E. apply spikes_good_keys.
Qed.

(** ** [is_spike] *)

(** The threshold applies to the size of the move: a fall of the open
    interest is a spike exactly when the rise of the same size is. *)
Theorem is_spike_sign (sym : json) (change oi_now : float) :
  is_spike (sym, (- change)%float, oi_now) = is_spike (sym, change, oi_now).
Proof.
  unfold is_spike, res_change. simpl.
  assert (E : abs (- change) = abs change).
  { apply Prim2SF_inj. rewrite !abs_spec, opp_spec.
    destruct (Prim2SF change); reflexivity. }
  rewrite E. reflexivity.
Qed.

(** ** [align_to_kline_period] and [wait_for_next_kline_period] *)

Lemma align_grid (t : Z) : align_to_kline_period t = 300000000 * (t / 300000000).
Proof.
  pose proof (next_period_start_grid t) as H.
  unfold next_period_start, aggregation_interval, US_PER_MIN, US_PER_S in H. lia.
Qed.

(** [align_to_kline_period] returns the start of the five-minute period
    holding [t]: a multiple of five minutes, at most [t] and less than five
    minutes before it, with zero seconds and microseconds and a minute
    divisible by five; aligning twice is aligning once. *)
Theorem align_period_start (t : Z) :
  align_to_kline_period t mod 300000000 = 0 /\
  t - 300000000 < align_to_kline_period t <= t /\
  dt_microsecond (align_to_kline_period t) = 0 /\
  dt_second (align_to_kline_period t) = 0 /\
  dt_minute (align_to_kline_period t) mod 5 = 0 /\
  align_to_kline_period (align_to_kline_period t) = align_to_kline_period t.
Proof.
  rewrite !align_grid. set (q := t / 300000000).
  unfold dt_microsecond, dt_second, dt_minute, US_PER_MIN, US_PER_S.
  pose proof (Z.div_mod t 300000000 ltac:(lia)) as Hd.
  pose proof (Z.mod_pos_bound t 300000000 ltac:(lia)) as Hb.
  fold q in Hd.
  split; [rewrite Z.mul_comm; apply Z.mod_mul; lia|].
  split; [lia|].
  split; [replace (300000000 * q) with ((300 * q) * 1000000) by ring; apply Z.mod_mul; lia|].
  split.
  { replace (300000000 * q) with ((300 * q) * 1000000) by ring.
    rewrite Z.div_mul by lia. replace (300 * q) with ((5 * q) * 60) by ring.
    apply Z.mod_mul; lia. }
  split.
  { replace (300000000 * q) with ((5 * q) * (60 * 1000000)) by ring.
    rewrite Z.div_mul by lia.
    rewrite Z.mod_mod_divide by (exists 12; reflexivity).
    rewrite Z.mul_comm. apply Z.mod_mul; lia. }
  rewrite (Z.mul_comm 300000000 q), Z.div_mul by lia. ring.
Qed.

(** The next period start never moves backwards as the clock advances. *)
Theorem next_period_start_monotone (t1 t2 : Z) :
  t1 <= t2 -> next_period_start t1 <= next_period_start t2.
Proof.
  intros H. rewrite !next_period_start_grid.
  pose proof (Z.div_le_mono t1 t2 300000000 ltac:(lia) H). lia.
Qed.

(** With the second clock reading [now2] not before the first [now1], the
    sleep lasts at most five minutes and ends exactly on the period start
    computed from [now1]; when there is no sleep, [now2] has already reached
    that period start. *)
Theorem wait_bounded (now1 now2 : Z) :
  now1 <= now2 ->
  match wait_for_next_kline_period now1 now2 with
  | Some w => 0 < w <= 300000000 /\ now2 + w = next_period_start now1 /\
              (now2 + w) mod 300000000 = 0
  | None => next_period_start now1 <= now2
  end.
Proof.
  intros H. unfold wait_for_next_kline_period.
  pose proof (next_period_start_grid now1) as G.
  pose proof (Z.div_mod now1 300000000 ltac:(lia)) as Hd.
  pose proof (Z.mod_pos_bound now1 300000000 ltac:(lia)) as Hb.
  destruct (Z.ltb_spec 0 (next_period_start now1 - now2)); [|lia].
  split; [lia|]. split; [lia|].
  replace (now2 + (next_period_start now1 - now2)) with ((now1 / 300000000 + 1) * 300000000) by lia.
  apply Z.mod_mul; lia.
Qed.

(** * Witnesses of the further properties *)

Lemma example_completion_ok : completion_ok example_catalog example_completed.
Proof.
  intros symbols H. vm_compute in H. inversion H; subst. simpl.
  apply perm_skip, perm_swap.
Qed.

Lemma usdtm_symbols_wellformed_witness :
  get_usdtm_symbols
    (Some (JObj [("symbols", JList [catalog_entry "A" "PERPETUAL" "USDT" "TRADING";
                                    catalog_entry "X" "PERPETUAL" "BUSD" "TRADING";
                                    catalog_entry "Q" "CURRENT_QUARTER" "USDT" "TRADING"])])) =
  Ok (flat_map usdtm_entry_symbol [catalog_entry "A" "PERPETUAL" "USDT" "TRADING";
                                   catalog_entry "X" "PERPETUAL" "BUSD" "TRADING";
                                   catalog_entry "Q" "CURRENT_QUARTER" "USDT" "TRADING"]).
Proof.
  apply usdtm_symbols_wellformed; [reflexivity|].
  repeat (apply Forall_cons; [do 2 eexists; split; reflexivity|]). apply Forall_nil.
Defined.

Lemma oi_change_result_origin_witness :
  res_sym (JStr "A", ((109 - 100) / 100 * 100)%float, 109%float) = JStr "A" /\
  exists l v0 v1 oi_old,
    Some (JList [oi_entry (JStr "100"); oi_entry (JStr "109")]) = Some (JList l) /\
    (2 <= List.length l)%nat /\
    getitem_str (nth 0 l JNull) "sumOpenInterestValue" = Ok v0 /\
    getitem_str (nth 1 l JNull) "sumOpenInterestValue" = Ok v1 /\
    py_float v0 = Ok oi_old /\ (oi_old =? 0)%float = false /\
    py_float v1 = Ok (snd (JStr "A", ((109 - 100) / 100 * 100)%float, 109%float)).
Proof.
  apply (oi_change_result_origin (Some (JList [oi_entry (JStr "100"); oi_entry (JStr "109")]))
           (JStr "A")).
  vm_compute; reflexivity.
Defined.

Lemma run_scan_pool_from_universe_witness :
  scan_state (run_scan initial example_catalog example_completed) = initial \/
  (forall s, In s (coin_pool (scan_state (run_scan initial example_catalog example_completed))) ->
     In s [JStr "A"; JStr "B"; JStr "C"]) /\
  (forall s, In s (oi_top (scan_state (run_scan initial example_catalog example_completed))) ->
     In s [JStr "A"; JStr "B"; JStr "C"]).
Proof.
  apply run_scan_pool_from_universe; [vm_compute; reflexivity|apply example_completion_ok].
Defined.

Lemma run_scan_no_duplicates_witness :
  scan_state (run_scan initial example_catalog example_completed) = initial \/
  (NoDup (coin_pool (scan_state (run_scan initial example_catalog example_completed))) /\
   NoDup (oi_top (scan_state (run_scan initial example_catalog example_completed)))).
Proof.
  apply (run_scan_no_duplicates initial example_catalog example_completed
           [JStr "A"; JStr "B"; JStr "C"]).
  - vm_compute; reflexivity.
  - apply example_completion_ok.
  - repeat constructor; simpl; intuition discriminate.
Defined.

Lemma run_scan_pool_size_witness :
  scan_state (run_scan initial example_catalog example_completed) = initial \/
  ((List.length (coin_pool (scan_state (run_scan initial example_catalog example_completed)))
      <= List.length [JStr "A"; JStr "B"; JStr "C"])%nat /\
   (List.length (oi_top (scan_state (run_scan initial example_catalog example_completed)))
      <= List.length [JStr "A"; JStr "B"; JStr "C"])%nat).
Proof.
  apply run_scan_pool_size; [vm_compute; reflexivity|apply example_completion_ok].
Defined.

Lemma reachable_equal_counts_witness :
  List.length (coin_pool (scan_state (run_scan initial example_catalog example_completed))) =
  List.length (oi_top (scan_state (run_scan initial example_catalog example_completed))).
Proof.
  apply reachable_equal_counts. apply reach_cycle.
  - apply reach_init.
  - apply example_completion_ok.
  - vm_compute; reflexivity.
Defined.

Lemma run_scan_keeps_nonempty_witness :
  coin_pool (scan_state (run_scan {| coin_pool := [JStr "A"]; oi_top := [JStr "A"] |}
                           example_catalog example_completed)) <> [] /\
  oi_top (scan_state (run_scan {| coin_pool := [JStr "A"]; oi_top := [JStr "A"] |}
                        example_catalog example_completed)) <> [].
Proof.
  apply run_scan_keeps_nonempty; simpl; discriminate.
Defined.

Lemma run_scan_sorted_completion_witness :
  oi_top (scan_state (run_scan initial example_catalog
            [(JStr "C", Some (JList [oi_entry (JStr "50"); oi_entry (JStr "44")]));
             (JStr "A", Some (JList [oi_entry (JStr "100"); oi_entry (JStr "109")]))])) =
  coin_pool (scan_state (run_scan initial example_catalog
            [(JStr "C", Some (JList [oi_entry (JStr "50"); oi_entry (JStr "44")]));
             (JStr "A", Some (JList [oi_entry (JStr "100"); oi_entry (JStr "109")]))])).
Proof.
  apply (run_scan_sorted_completion initial example_catalog _ (JStr "A") [JStr "B"; JStr "C"]).
  - vm_compute; reflexivity.
  - vm_compute; discriminate.
  - vm_compute. repeat constructor.
Defined.

Lemma next_period_start_monotone_witness :
  next_period_start (clock 20000 12 7 33) <= next_period_start (clock 20000 12 9 0).
Proof.
  apply next_period_start_monotone. unfold clock, US_PER_MIN, US_PER_S. lia.
Defined.

Lemma wait_bounded_witness :
  match wait_for_next_kline_period (clock 20000 12 7 33) (clock 20000 12 7 34) with
  | Some w => 0 < w <= 300000000 /\ clock 20000 12 7 34 + w = next_period_start (clock 20000 12 7 33) /\
              (clock 20000 12 7 34 + w) mod 300000000 = 0
  | None => next_period_start (clock 20000 12 7 33) <= clock 20000 12 7 34
  end.
Proof.
  apply wait_bounded. unfold clock, US_PER_MIN, US_PER_S. lia.
Defined.
